(** * Cournot duopoly: payoff tables and brute-force Nash search

    A shallow embedding of [proj.py].  The script builds two 21x21 payoff
    tables for a marginal cost [c], scans every quantity pair for mutual best
    responses, and prints a report block for each [c] in [0..30].

    Modelling choices.
    - A numpy array of shape (n, m) is a list of [n] rows, each a list of [m]
      entries.  Reading or writing outside the array raises [IndexError] in
      numpy; reducing an empty array with [max] raises [ValueError].  Both are
      the [None] of the option monad here.
    - The entries are float64 in numpy.  The script only ever stores Python
      ints, and storing an int converts it to the nearest float64 (ties to
      even) or raises [OverflowError]; the result is again an integer, so
      entries are [Z] and the conversion is [Np.float_of_int].  Below 2^53
      the conversion changes nothing.
    - [print] appends one line to the output; a function that prints returns
      the list of lines it printed. *)

From stdpp Require Import base option list sorting strings pretty.
From Stdlib Require Import ZArith Lia.

Local Open Scope Z_scope.

(** Python mixes loop counters and costs freely; both are integers. *)
Local Coercion Z.of_nat : nat >-> Z.

(** ** numpy arrays *)

Module Np.

Abbreviation ndarray := (list (list Z)).

(** [np.zeros((n, m))] *)
Definition zeros (n m : nat) : ndarray := replicate n (replicate m 0).

(** [M.shape[0]] *)
Definition shape0 (M : ndarray) : nat := length M.

(** [M[i, j]] *)
Definition getitem (M : ndarray) (i j : nat) : option Z :=
  row ← M !! i; row !! j.

(** [M[i, j] = v]: the update happens in place when the cell exists. *)
Definition setitem (M : ndarray) (i j : nat) (v : Z) : option ndarray :=
  row ← M !! i; _ ← row !! j; Some (<[i := <[j := v]> row]> M).

(** The value a float64 cell takes when a Python int [v] is stored in it:
    [v] itself below 2^53; beyond, [v] rounded to 53 significant bits, to
    nearest with ties to even, which is again an integer.  A value that
    rounds to 2^1024 or more does not fit: [OverflowError]. *)
Definition float_of_int (v : Z) : option Z :=
  let a := Z.abs v in
  if decide (a < 2 ^ 53) then Some v
  else
    let e := Z.log2 a - 52 in
    let m := a / 2 ^ e in
    let r := a mod 2 ^ e in
    let half := 2 ^ (e - 1) in
    let m' := if decide (half < r ∨ (r = half ∧ Z.odd m = true))
              then m + 1 else m in
    let f := m' * 2 ^ e in
    if decide (f < 2 ^ 1024) then Some (Z.sgn v * f) else None.

(** [M[:, j]]: one entry from every row.  (A list of rows with no row keeps
    no column count; the search never slices such an array, its loops do not
    run then.) *)
Definition column (M : ndarray) (j : nat) : option (list Z) :=
  mapM (λ row : list Z, row !! j) M.

(** [a.max()] *)
Definition amax (a : list Z) : option Z :=
  match a with
  | [] => None
  | x :: a' => Some (foldl Z.max x a')
  end.

(** The array has shape (n, m). *)
Definition has_shape (n m : nat) (M : ndarray) : Prop :=
  length M = n ∧ Forall (λ row, length row = m) M.

Global Instance has_shape_dec n m M : Decision (has_shape n m M).
Proof. unfold has_shape. apply _. Defined.

End Np.

(** ** Python loops and strings *)

(** [range(n)] *)
Definition range (n : nat) : list nat := seq 0 n.

(** [for i in l: s = body(i, s)], where the body may raise. *)
Fixpoint for_in {St : Type} (l : list nat) (body : nat → St → option St)
    (s : St) : option St :=
  match l with
  | [] => Some s
  | i :: l' => s' ← body i s; for_in l' body s'
  end.

(** [s * n] on strings *)
Fixpoint str_mul (s : string) (n : nat) : string :=
  match n with
  | O => EmptyString
  | S n' => s +:+ str_mul s n'
  end.

(** ** The script *)

(** [PayoffMatrices(c)], lines 46-56. *)
Definition PayoffMatrices (c : Z) : option (Np.ndarray * Np.ndarray) :=
  let n := 21%nat in
  let A := Np.zeros n n in
  let B := Np.zeros n n in
  for_in (range n) (λ q1 AB,
    for_in (range n) (λ q2 '(A, B),
      a ← Np.float_of_int (((30 - q1 - q2) * q1) - (c * q1));
      A ← Np.setitem A q1 q2 a;
      b ← Np.float_of_int (((30 - q1 - q2) * q2) - (c * q2));
      B ← Np.setitem B q2 q1 b;
      Some (A, B)) AB) (A, B).

(** The search loop of [NashEquilibrium], lines 76-90: the list [equilibria]
    as it stands when the loops are done. *)
Definition equilibria (A B : Np.ndarray) : option (list (nat * nat)) :=
  let n := Np.shape0 A in
  for_in (range n) (λ q1 eqs,
    for_in (range n) (λ q2 eqs,
      a ← Np.getitem A q1 q2;
      colA ← Np.column A q2;
      maxA ← Np.amax colA;
      let firm1_best_response := bool_decide (maxA ≤ a) in
      b ← Np.getitem B q2 q1;
      colB ← Np.column B q1;
      maxB ← Np.amax colB;
      let firm2_best_response := bool_decide (maxB ≤ b) in
      if firm1_best_response && firm2_best_response
      then Some (eqs ++ [(q1, q2)])
      else Some eqs) eqs) [].

(** The two kinds of line [NashEquilibrium] prints. *)
Definition equilibrium_line (c : Z) (eq : nat * nat) : string :=
  "For marginal cost c = " +:+ pretty c +:+ ", the strategy profile (q1="
  +:+ pretty eq.1 +:+ ", q2=" +:+ pretty eq.2 +:+ ") is a Nash equilibrium.".

Definition absence_line (c : Z) : string :=
  "For marginal cost c = " +:+ pretty c
  +:+ ", no pure strategy Nash equilibrium exists.".

(** [NashEquilibrium(A, B, c)], lines 76-98: the lines it prints. *)
Definition NashEquilibrium (A B : Np.ndarray) (c : Z) : option (list string) :=
  eqs ← equilibria A B;
  match eqs with
  | _ :: _ => Some (equilibrium_line c <$> eqs)
  | [] => Some [absence_line c]
  end.

(** [main()], lines 101-109: the lines it prints. *)
Definition main : option (list string) :=
  for_in (range 31) (λ c out,
    let out := out ++ ["Marginal cost c = " +:+ pretty c] in
    let out := out ++ [str_mul "-" 30] in
    '(A, B) ← PayoffMatrices c;
    lines ← NashEquilibrium A B c;
    let out := out ++ lines in
    let out := out ++ [EmptyString] in
    let out := out ++ [str_mul "=" 30] in
    let out := out ++ [EmptyString] in
    Some out) [].

(** Lines 105-106 of the sweep, for one cost: build the tables, search them. *)
Definition sweep_equilibria (c : Z) : option (list (nat * nat)) :=
  '(A, B) ← PayoffMatrices c; equilibria A B.

(** How many equilibrium pairs the search finds for cost [c]. *)
Definition equilibrium_count (c : Z) : option nat :=
  length <$> sweep_equilibria c.

Local Close Scope Z_scope.

(** ** Vocabulary of the specification *)

(** [v] is the maximum of column [j] of [M]: it occurs in the column and no
    entry of the column exceeds it. *)
Definition col_max (M : Np.ndarray) (j : nat) (v : Z) : Prop :=
  (∃ i, Np.getitem M i j = Some v) ∧
  (∀ i x, Np.getitem M i j = Some x → (x ≤ v)%Z).

(** [(q1, q2)] is a pure-strategy Nash equilibrium of the tables [A], [B]:
    Firm 1's payoff is the maximum of column [q2] of [A] and Firm 2's payoff
    is the maximum of column [q1] of [B]. *)
Definition is_nash (A B : Np.ndarray) (q : nat * nat) : Prop :=
  ∃ a b, Np.getitem A q.1 q.2 = Some a ∧ Np.getitem B q.2 q.1 = Some b ∧
         col_max A q.2 a ∧ col_max B q.1 b.

(** Lexicographic order on pairs, first component first. *)
Definition lex_lt (p q : nat * nat) : Prop :=
  p.1 < q.1 ∨ (p.1 = q.1 ∧ p.2 < q.2).

(** What [NashEquilibrium] prints for a given list of equilibria. *)
Definition equilibrium_report (c : Z) (eqs : list (nat * nat)) : list string :=
  match eqs with
  | [] => [absence_line c]
  | _ :: _ => equilibrium_line c <$> eqs
  end.

(** The report as section 6 of the specification words it, written from
    that text and not from the code's format strings.  Item 3: the line of
    an equilibrium pair, and the line that says there is none. *)
Definition spec_equilibrium_line (c : nat) (q : nat * nat) : string :=
  String.concat EmptyString
    ["For marginal cost c = "; pretty c; ", the strategy profile (q1=";
     pretty q.1; ", q2="; pretty q.2; ") is a Nash equilibrium."].

Definition spec_absence_line (c : nat) : string :=
  String.concat EmptyString
    ["For marginal cost c = "; pretty c;
     ", no pure strategy Nash equilibrium exists."].

(** The six-part block of the report for one cost: header, 30 dashes, the
    equilibrium lines or the absence line, a blank line, 30 equals signs, a
    blank line. *)
Definition report_block (c : nat) (eqs : list (nat * nat)) : list string :=
  [String.concat EmptyString ["Marginal cost c = "; pretty c];
   "------------------------------"]
  ++ match eqs with
     | [] => [spec_absence_line c]
     | _ :: _ => spec_equilibrium_line c <$> eqs
     end
  ++ [EmptyString; "=============================="; EmptyString].

(** The costs for which every profit is stored exactly: with quantities up
    to 20 and |c| <= 2^48 every profit is below 2^53 in magnitude. *)
Definition exact_cost (c : Z) : Prop := (- 2 ^ 48 ≤ c ≤ 2 ^ 48)%Z.

Global Instance exact_cost_dec c : Decision (exact_cost c).
Proof. unfold exact_cost. apply _. Defined.

(** Loop invariant of [PayoffMatrices]: both tables keep their shape, and
    every pair [(q1, q2)] the loops have [visited] holds its two profits. *)
Definition filled (c : Z) (visited : nat → nat → Prop)
    (AB : Np.ndarray * Np.ndarray) : Prop :=
  Np.has_shape 21 21 AB.1 ∧ Np.has_shape 21 21 AB.2 ∧
  ∀ q1 q2, q1 < 21 → q2 < 21 → visited q1 q2 →
    Np.getitem AB.1 q1 q2 = Some ((30 - q1 - q2) * q1 - c * q1)%Z ∧
    Np.getitem AB.2 q2 q1 = Some ((30 - q1 - q2) * q2 - c * q2)%Z.

(** The same invariant for any cost: a visited cell holds the float64 the
    store made of its profit. *)
Definition stored (c : Z) (visited : nat → nat → Prop)
    (AB : Np.ndarray * Np.ndarray) : Prop :=
  Np.has_shape 21 21 AB.1 ∧ Np.has_shape 21 21 AB.2 ∧
  ∀ q1 q2, q1 < 21 → q2 < 21 → visited q1 q2 →
    Np.getitem AB.1 q1 q2
    = Np.float_of_int ((30 - q1 - q2) * q1 - c * q1)%Z ∧
    Np.getitem AB.2 q2 q1
    = Np.float_of_int ((30 - q1 - q2) * q2 - c * q2)%Z.

(** The test of lines 84 and 87 as one function: entry [(own, other)] of [M]
    is at least the maximum of column [other]. *)
Definition best_response (M : Np.ndarray) (own other : nat) : bool :=
  match Np.getitem M own other, Np.column M other ≫= Np.amax with
  | Some v, Some mx => bool_decide (mx ≤ v)%Z
  | _, _ => false
  end.

(** The pairs the search keeps, as a list comprehension over the grid. *)
Definition nash_pairs (A B : Np.ndarray) (n : nat) : list (nat * nat) :=
  q1 ← seq 0 n; q2 ← seq 0 n;
  if best_response A q1 q2 && best_response B q2 q1 then [(q1, q2)] else [].

(** The table both loops of [PayoffMatrices] fill, written as a tabulation:
    row [q1], column [q2] holds [(30 - q1 - q2) * q1 - c * q1]. *)
Definition profit_table (c : Z) : Np.ndarray :=
  (λ q1 : nat,
     (λ q2 : nat, ((30 - q1 - q2) * q1 - c * q1)%Z) <$> seq 0 21) <$> seq 0 21.

(** Every pair of the n x n grid, first component outer. *)
Definition grid (n : nat) : list (nat * nat) :=
  q1 ← seq 0 n; q2 ← seq 0 n; [(q1, q2)].

(** ** Facts about arrays *)

Section ndarray_facts.
Context (n m : nat) (M : Np.ndarray) (HM : Np.has_shape n m M).

Lemma getitem_in_bounds i j :
  i < n → j < m → is_Some (Np.getitem M i j).
Proof.
  destruct HM as [Hlen Hrows]. intros Hi Hj. unfold Np.getitem.
  destruct (lookup_lt_is_Some_2 M i) as [row Hrow]; [lia|].
  rewrite Hrow. simpl. apply lookup_lt_is_Some_2.
  by rewrite (Forall_lookup_1 _ _ _ _ Hrows Hrow).
Qed.

Lemma getitem_Some_bounds i j v :
  Np.getitem M i j = Some v → i < n ∧ j < m.
Proof.
  destruct HM as [Hlen Hrows]. unfold Np.getitem. intros H.
  destruct (M !! i) as [row|] eqn:Hrow; simplify_eq/=.
  split.
  - apply lookup_lt_Some in Hrow. lia.
  - rewrite <-(Forall_lookup_1 _ _ _ _ Hrows Hrow). by eapply lookup_lt_Some.
Qed.

Lemma getitem_None_iff i j :
  Np.getitem M i j = None ↔ ¬ (i < n ∧ j < m).
Proof.
  split.
  - intros HN [Hi Hj]. destruct (getitem_in_bounds i j Hi Hj) as [v Hv]. congruence.
  - intros Hb. destruct (Np.getitem M i j) as [v|] eqn:Hv; [|done].
    by apply getitem_Some_bounds in Hv.
Qed.

Lemma setitem_spec i j v :
  i < n → j < m →
  ∃ M', Np.setitem M i j v = Some M' ∧ Np.has_shape n m M' ∧
        ∀ i' j', Np.getitem M' i' j' =
                 if decide (i' = i ∧ j' = j) then Some v else Np.getitem M i' j'.
Proof.
  destruct HM as [Hlen Hrows]. intros Hi Hj. unfold Np.setitem.
  destruct (lookup_lt_is_Some_2 M i) as [row Hrow]; [lia|].
  assert (length row = m) as Hlrow by apply (Forall_lookup_1 _ _ _ _ Hrows Hrow).
  destruct (lookup_lt_is_Some_2 row j) as [x Hx]; [lia|].
  rewrite Hrow. simpl. rewrite Hx. simpl.
  eexists. split; [done|]. split.
  - split; [by rewrite length_insert|].
    apply Forall_insert; [done|]. by rewrite length_insert.
  - intros i' j'. unfold Np.getitem.
    destruct (decide (i' = i)) as [->|Hne].
    + rewrite list_lookup_insert_eq by lia. simpl.
      destruct (decide (j' = j)) as [->|Hnej].
      * rewrite list_lookup_insert_eq by lia. by rewrite decide_True.
      * rewrite list_lookup_insert_ne by done.
        rewrite decide_False by (intros [_ ?]; done). by rewrite Hrow.
    + rewrite list_lookup_insert_ne by done.
      by rewrite decide_False by (intros [? _]; done).
Qed.

Lemma setitem_None_iff i j v :
  Np.setitem M i j v = None ↔ ¬ (i < n ∧ j < m).
Proof.
  split.
  - intros HN [Hi Hj].
    destruct (setitem_spec i j v Hi Hj) as (M' & HM' & _). congruence.
  - intros Hb. apply getitem_None_iff in Hb. revert Hb.
    unfold Np.getitem, Np.setitem.
    destruct (M !! i) as [row|]; simpl; [|done].
    by intros ->.
Qed.

Lemma column_spec j :
  j < m →
  ∃ col, Np.column M j = Some col ∧ length col = n ∧
         ∀ i, col !! i = Np.getitem M i j.
Proof.
  destruct HM as [Hlen Hrows]. intros Hj. unfold Np.column.
  destruct (mapM_is_Some_2 (λ row : list Z, row !! j) M) as [col Hcol].
  { eapply Forall_impl; [exact Hrows|]. intros row Hl. simpl in *.
    apply lookup_lt_is_Some_2. lia. }
  exists col. split; [done|]. apply mapM_Some in Hcol.
  split; [by rewrite <-(Forall2_length _ _ _ Hcol)|].
  intros i. unfold Np.getitem.
  destruct (M !! i) as [row|] eqn:Hrow; simpl.
  - destruct (Forall2_lookup_l _ _ _ _ _ Hcol Hrow) as (y & Hy & Hry). congruence.
  - apply lookup_ge_None. apply lookup_ge_None in Hrow.
    rewrite <-(Forall2_length _ _ _ Hcol). done.
Qed.

Lemma column_None_iff j :
  0 < n → Np.column M j = None ↔ m ≤ j.
Proof.
  intros Hn. split.
  - intros HN. destruct (decide (j < m)) as [Hj|Hj]; [|lia].
    destruct (column_spec j Hj) as (col & Hcol & _). congruence.
  - intros Hj. destruct (Np.column M j) as [col|] eqn:Hcol; [|done].
    destruct HM as [Hlen Hrows]. apply mapM_Some in Hcol.
    destruct (lookup_lt_is_Some_2 M 0) as [row Hrow]; [lia|].
    destruct (Forall2_lookup_l _ _ _ _ _ Hcol Hrow) as (y & _ & Hy).
    apply lookup_lt_Some in Hy.
    pose proof (Forall_lookup_1 _ _ _ _ Hrows Hrow) as Hl. simpl in Hl. lia.
Qed.

End ndarray_facts.

Lemma zeros_shape n m : Np.has_shape n m (Np.zeros n m).
Proof.
  split; [apply length_replicate|].
  apply Forall_replicate, length_replicate.
Qed.

Lemma foldl_max_spec (a : list Z) :
  ∀ x, foldl Z.max x a ∈ x :: a ∧ ∀ y, y ∈ x :: a → (y ≤ foldl Z.max x a)%Z.
Proof.
  induction a as [|z a IH]; intros x; simpl.
  - split; [apply elem_of_cons; by left|].
    intros y Hy. apply list_elem_of_singleton in Hy. lia.
  - destruct (IH (Z.max x z)) as [Hin Hub]. split.
    + apply elem_of_cons in Hin as [Heq|Hin].
      * rewrite Heq. destruct (Z.max_spec x z) as [[_ ->]|[_ ->]].
        -- apply elem_of_cons. right. apply elem_of_cons. by left.
        -- apply elem_of_cons. by left.
      * do 2 (apply elem_of_cons; right). done.
    + intros y Hy.
      assert (Z.max x z ≤ foldl Z.max (Z.max x z) a)%Z as Hm.
      { apply Hub, elem_of_cons. by left. }
      apply elem_of_cons in Hy as [->|Hy]; [lia|].
      apply elem_of_cons in Hy as [->|Hy]; [lia|].
      apply Hub, elem_of_cons. by right.
Qed.

Lemma amax_spec (a : list Z) :
  a ≠ [] →
  ∃ r, Np.amax a = Some r ∧ r ∈ a ∧ ∀ y, y ∈ a → (y ≤ r)%Z.
Proof.
  destruct a as [|x a]; [done|]. intros _. simpl.
  exists (foldl Z.max x a). split; [done|]. apply foldl_max_spec.
Qed.

(** ** Facts about loops *)

(** The invariant rule for a counting loop whose body never raises. *)
Lemma for_in_seq_inv {St} (P : nat → St → Prop) (body : nat → St → option St) len :
  ∀ lo s,
    P lo s →
    (∀ i s, lo ≤ i < lo + len → P i s → ∃ s', body i s = Some s' ∧ P (S i) s') →
    ∃ s', for_in (seq lo len) body s = Some s' ∧ P (lo + len) s'.
Proof.
  induction len as [|len IH]; intros lo s Hs Hstep; simpl.
  - exists s. split; [done|]. by replace (lo + 0) with lo by lia.
  - destruct (Hstep lo s) as (s1 & Hb & Hs1); [lia|done|].
    rewrite Hb. simpl.
    destruct (IH (S lo) s1) as (s2 & Hl & Hs2); [done| |].
    + intros i t Hi. apply Hstep. lia.
    + exists s2. split; [done|]. by replace (lo + S len) with (S lo + len) by lia.
Qed.

(** A loop that only appends to an accumulator computes a list comprehension. *)
Lemma for_in_collect {X} (f : nat → list X) (body : nat → list X → option (list X)) l :
  ∀ acc,
    (∀ i acc, i ∈ l → body i acc = Some (acc ++ f i)) →
    for_in l body acc = Some (acc ++ (l ≫= f)).
Proof.
  induction l as [|i l IH]; intros acc Hbody; simpl.
  - by rewrite app_nil_r.
  - rewrite Hbody by (apply elem_of_cons; by left). simpl.
    rewrite IH.
    + by rewrite <-app_assoc.
    + intros j acc' Hj. apply Hbody, elem_of_cons. by right.
Qed.

(** ** The payoff tables *)

(** Below 2^53 the store keeps the integer as it is. *)
Lemma float_of_int_exact (v : Z) :
  (Z.abs v < 2 ^ 53)%Z → Np.float_of_int v = Some v.
Proof. intros Hv. unfold Np.float_of_int. cbv zeta. by rewrite decide_True. Qed.

(** For an exact cost every profit of the grid is below 2^53. *)
Lemma profit_store_exact c (x y : nat) (v : Z) :
  exact_cost c → x < 21 → y < 21 →
  v = ((30 - x - y) * x - c * x)%Z → Np.float_of_int v = Some v.
Proof.
  intros [Hlo Hhi] Hx Hy ->. apply float_of_int_exact.
  change (2 ^ 48)%Z with 281474976710656%Z in Hlo, Hhi.
  change (2 ^ 53)%Z with 9007199254740992%Z.
  assert (-200 ≤ (30 - x - y) * x ≤ 600)%Z by nia.
  assert (-5629499534213120 ≤ c * x ≤ 5629499534213120)%Z by nia.
  lia.
Qed.

Lemma PayoffMatrices_filled c :
  exact_cost c →
  ∃ AB, PayoffMatrices c = Some AB ∧ filled c (λ _ _, True) AB.
Proof.
  intros Hc. unfold PayoffMatrices, range. cbv zeta.
  match goal with
  | |- context [for_in (seq 0 21) ?body ?s] =>
      destruct (for_in_seq_inv (λ k, filled c (λ q1 _, q1 < k)) body 21 0 s)
        as (AB & Hrun & HAB)
  end.
  - split; [apply zeros_shape|]. split; [apply zeros_shape|]. intros; lia.
  - intros q1 AB Hq1 HAB.
    match goal with
    | |- context [for_in (seq 0 21) ?body AB] =>
        destruct (for_in_seq_inv
                    (λ k, filled c (λ i j, i < q1 ∨ (i = q1 ∧ j < k))) body 21 0 AB)
          as (AB' & Hrun & HAB')
    end.
    + destruct HAB as (HA & HB & Hv). split; [done|]. split; [done|].
      intros i j Hi Hj [Hlt|[_ Hlt]]; [by apply Hv|lia].
    + intros q2 [A B] Hq2 (HA & HB & Hv). simpl in HA, HB, Hv.
      rewrite (profit_store_exact c q1 q2 ((30 - q1 - q2) * q1 - c * q1)%Z)
        by (done || lia). simpl.
      destruct (setitem_spec 21 21 A HA q1 q2
                  ((30 - q1 - q2) * q1 - c * q1)%Z) as (A' & -> & HA' & HgA); [lia..|].
      simpl.
      rewrite (profit_store_exact c q2 q1 ((30 - q1 - q2) * q2 - c * q2)%Z)
        by (done || lia). simpl.
      destruct (setitem_spec 21 21 B HB q2 q1
                  ((30 - q1 - q2) * q2 - c * q2)%Z) as (B' & -> & HB' & HgB); [lia..|].
      simpl. eexists. split; [done|].
      split; [done|]. split; [done|]. simpl.
      intros i j Hi Hj Hvis. rewrite HgA, HgB.
      destruct (decide (i = q1 ∧ j = q2)) as [[-> ->]|Hne].
      * by rewrite decide_True.
      * rewrite decide_False by (intros [? ?]; apply Hne; done).
        apply Hv; [done..|]. lia.
    + exists AB'. split; [done|].
      destruct HAB' as (HA & HB & Hv). split; [done|]. split; [done|].
      intros i j Hi Hj Hlt. apply Hv; [done..|]. lia.
  - exists AB. split; [done|].
    destruct HAB as (HA & HB & Hv). split; [done|]. split; [done|].
    intros i j Hi Hj _. apply Hv; [done..|]. lia.
Qed.

(** The invariant rule for a loop that returned: what the body preserves
    whenever it returns holds at the end. *)
Lemma for_in_seq_returned {St} (P : nat → St → Prop)
    (body : nat → St → option St) len :
  ∀ lo s s',
    P lo s →
    (∀ i t t', lo ≤ i < lo + len → P i t → body i t = Some t' → P (S i) t') →
    for_in (seq lo len) body s = Some s' → P (lo + len) s'.
Proof.
  induction len as [|len IH]; intros lo s s' Hs Hstep; simpl.
  - intros [= <-]. by replace (lo + 0) with lo by lia.
  - destruct (body lo s) as [s1|] eqn:Hb; simpl; [|done]. intros Hrun.
    replace (lo + S len) with (S lo + len) by lia.
    apply (IH (S lo) s1 s'); [|intros i t t' Hi; apply Hstep; lia|done].
    apply (Hstep lo s s1); [lia|done..].
Qed.

(** Whatever the cost, when [PayoffMatrices] returns, every cell holds the
    float64 made of its profit. *)
Lemma PayoffMatrices_stored c AB :
  PayoffMatrices c = Some AB → stored c (λ _ _, True) AB.
Proof.
  unfold PayoffMatrices, range. cbv zeta. intros Hrun.
  match type of Hrun with
  | for_in (seq 0 21) ?body ?s = _ =>
      pose proof (for_in_seq_returned
                    (λ k, stored c (λ q1 _, q1 < k)) body 21 0 s AB) as Hinv
  end.
  destruct Hinv as (HA & HB & Hv); [| |exact Hrun|].
  - split; [apply zeros_shape|]. split; [apply zeros_shape|]. intros; lia.
  - intros q1 S0 S1 Hq1 HS0 Hrow.
    match type of Hrow with
    | for_in (seq 0 21) ?body _ = _ =>
        pose proof (for_in_seq_returned
                      (λ k, stored c (λ i j, i < q1 ∨ (i = q1 ∧ j < k)))
                      body 21 0 S0 S1) as Hinv
    end.
    destruct Hinv as (HA & HB & Hv); [| |exact Hrow|].
    + destruct HS0 as (HA & HB & Hv). split; [done|]. split; [done|].
      intros i j Hi Hj [Hlt|[_ Hlt]]; [by apply Hv|lia].
    + intros q2 [A B] T Hq2 (HA & HB & Hv). simpl in HA, HB, Hv.
      destruct (Np.float_of_int ((30 - q1 - q2) * q1 - c * q1)%Z)
        as [a|] eqn:Ha; simpl; [|done].
      destruct (setitem_spec 21 21 A HA q1 q2 a)
        as (A' & -> & HA' & HgA); [lia..|]. simpl.
      destruct (Np.float_of_int ((30 - q1 - q2) * q2 - c * q2)%Z)
        as [b|] eqn:Hb; simpl; [|done].
      destruct (setitem_spec 21 21 B HB q2 q1 b)
        as (B' & -> & HB' & HgB); [lia..|]. simpl.
      intros [= <-]. split; [done|]. split; [done|]. simpl.
      intros i j Hi Hj Hvis. rewrite HgA, HgB.
      destruct (decide (i = q1 ∧ j = q2)) as [[-> ->]|Hne].
      * by rewrite decide_True.
      * rewrite decide_False by (intros [? ?]; apply Hne; done).
        apply Hv; [done..|]. lia.
    + split; [done|]. split; [done|].
      intros i j Hi Hj Hlt. apply Hv; [done..|]. lia.
  - split; [done|]. split; [done|].
    intros i j Hi Hj _. apply Hv; [done..|]. lia.
Qed.

(** ** The equilibrium search *)

Section search.
Context (n : nat) (A B : Np.ndarray).
Context (HA : Np.has_shape n n A) (HB : Np.has_shape n n B).

Lemma column_amax (M : Np.ndarray) j :
  Np.has_shape n n M → j < n →
  ∃ mx, Np.column M j ≫= Np.amax = Some mx ∧
        (∃ i, Np.getitem M i j = Some mx) ∧
        (∀ i x, Np.getitem M i j = Some x → (x ≤ mx)%Z).
Proof.
  intros HM Hj.
  destruct (column_spec n n M HM j Hj) as (col & Hcol & Hlen & Hget).
  destruct (amax_spec col) as (mx & Hmx & Hin & Hub).
  { intros ->. simpl in Hlen. lia. }
  exists mx. rewrite Hcol. simpl. split; [done|]. split.
  - apply list_elem_of_lookup in Hin as [i Hi]. exists i. by rewrite <-Hget.
  - intros i x Hx. apply Hub. apply list_elem_of_lookup. exists i. by rewrite Hget.
Qed.

Lemma best_response_col_max (M : Np.ndarray) i j :
  Np.has_shape n n M → i < n → j < n →
  best_response M i j ↔ ∃ v, Np.getitem M i j = Some v ∧ col_max M j v.
Proof.
  intros HM Hi Hj. unfold best_response.
  destruct (getitem_in_bounds n n M HM i j Hi Hj) as [v Hv].
  destruct (column_amax M j HM Hj) as (mx & -> & [k Hk] & Hub).
  rewrite Hv. rewrite bool_decide_spec. split.
  - intros Hle. exists v. split; [done|]. split; [by exists i|].
    intros i' x Hx. specialize (Hub i' x Hx). lia.
  - intros (v' & Hv' & _ & Hmax). simplify_eq. by apply (Hmax k).
Qed.

Lemma equilibria_nash_pairs : equilibria A B = Some (nash_pairs A B n).
Proof.
  unfold equilibria, nash_pairs, Np.shape0, range.
  replace (length A) with n by (symmetry; apply HA). cbv zeta.
  rewrite (for_in_collect
             (λ q1, seq 0 n ≫= λ q2,
                if best_response A q1 q2 && best_response B q2 q1
                then [(q1, q2)] else [])); [done|].
  intros q1 eqs Hq1. apply elem_of_seq in Hq1.
  rewrite (for_in_collect
             (λ q2, if best_response A q1 q2 && best_response B q2 q1
                    then [(q1, q2)] else [])); [done|].
  intros q2 acc Hq2. apply elem_of_seq in Hq2.
  unfold best_response.
  destruct (getitem_in_bounds n n A HA q1 q2) as [a Ha]; [lia..|].
  destruct (getitem_in_bounds n n B HB q2 q1) as [b Hb]; [lia..|].
  destruct (column_amax A q2 HA) as (maxA & HmaxA & _); [lia|].
  destruct (column_amax B q1 HB) as (maxB & HmaxB & _); [lia|].
  rewrite HmaxA, HmaxB, Ha, Hb. simpl.
  destruct (Np.column A q2) as [colA|]; [|done]. simpl in HmaxA |- *.
  destruct (Np.column B q1) as [colB|]; [|done]. simpl in HmaxB |- *.
  rewrite HmaxA, HmaxB. simpl.
  destruct (bool_decide (maxA ≤ a)%Z && bool_decide (maxB ≤ b)%Z); [done|].
  by rewrite app_nil_r.
Qed.

Lemma elem_of_nash_pairs q : q ∈ nash_pairs A B n ↔ is_nash A B q.
Proof.
  destruct q as [q1 q2]. unfold nash_pairs, is_nash. simpl.
  rewrite list_elem_of_bind. split.
  - intros (i & Hin & Hi). apply elem_of_seq in Hi.
    apply list_elem_of_bind in Hin as (j & Hin & Hj). apply elem_of_seq in Hj.
    destruct (best_response A i j && best_response B j i) eqn:Hbr;
      [|by apply elem_of_nil in Hin].
    apply list_elem_of_singleton in Hin. simplify_eq.
    apply andb_prop in Hbr as [H1 H2].
    apply Is_true_true_2, best_response_col_max in H1 as (a & Ha & Hca); [|done||lia..].
    apply Is_true_true_2, best_response_col_max in H2 as (b & Hb & Hcb); [|done||lia..].
    by exists a, b.
  - intros (a & b & Ha & Hb & Hca & Hcb).
    destruct (getitem_Some_bounds n n A HA _ _ _ Ha) as [Hq1 Hq2].
    exists q1. split; [|apply elem_of_seq; lia].
    apply list_elem_of_bind. exists q2. split; [|apply elem_of_seq; lia].
    assert (best_response A q1 q2) as H1.
    { apply best_response_col_max; [done..|]. by exists a. }
    assert (best_response B q2 q1) as H2.
    { apply best_response_col_max; [done..|]. by exists b. }
    apply Is_true_true_1 in H1, H2. rewrite H1, H2. simpl.
    by apply list_elem_of_singleton.
Qed.

End search.

(** A comprehension over [seq] is sorted when every piece is, and the pieces
    come in increasing order. *)
Lemma bind_seq_sorted {X} (R : relation X) (f : nat → list X) len :
  ∀ lo,
    (∀ i, StronglySorted R (f i)) →
    (∀ i j x y, i < j → x ∈ f i → y ∈ f j → R x y) →
    StronglySorted R (seq lo len ≫= f).
Proof.
  induction len as [|len IH]; intros lo Hpiece Hcross; simpl.
  - constructor.
  - apply StronglySorted_app_2; [|apply Hpiece|by apply IH].
    intros x y Hx Hy.
    apply list_elem_of_bind in Hy as (j & Hy & Hj).
    apply elem_of_seq in Hj. apply (Hcross lo j); [lia|done..].
Qed.

Lemma nash_pairs_sorted A B n : StronglySorted lex_lt (nash_pairs A B n).
Proof.
  assert (∀ q1 q2 q,
    q ∈ (if best_response A q1 q2 && best_response B q2 q1
         then [(q1, q2)] else []) → q = (q1, q2)) as Hcell.
  { intros q1 q2 q. destruct (_ && _); [|by intros ?%elem_of_nil].
    by intros ?%list_elem_of_singleton. }
  unfold nash_pairs. apply bind_seq_sorted.
  - intros q1. apply bind_seq_sorted.
    + intros q2. destruct (_ && _); repeat constructor.
    + intros i j x y Hij ->%Hcell ->%Hcell. right. simpl. lia.
  - intros i j x y Hij Hx Hy.
    apply list_elem_of_bind in Hx as (x2 & ->%Hcell & _).
    apply list_elem_of_bind in Hy as (y2 & ->%Hcell & _).
    left. simpl. lia.
Qed.

(** Two arrays of one shape with the same entries are the same array. *)
Lemma ndarray_ext n m (A B : Np.ndarray) :
  Np.has_shape n m A → Np.has_shape n m B →
  (∀ i j, i < n → j < m → Np.getitem A i j = Np.getitem B i j) →
  A = B.
Proof.
  intros [HlA HrA] [HlB HrB] Hent. apply list_eq. intros i.
  destruct (A !! i) as [ra|] eqn:Hra.
  - assert (i < n) as Hi by (apply lookup_lt_Some in Hra; lia).
    destruct (lookup_lt_is_Some_2 B i) as [rb Hrb]; [lia|].
    rewrite Hrb. f_equal. apply list_eq. intros j.
    destruct (decide (j < m)) as [Hj|Hj].
    + specialize (Hent i j Hi Hj). unfold Np.getitem in Hent.
      by rewrite Hra, Hrb in Hent.
    + pose proof (Forall_lookup_1 _ _ _ _ HrA Hra) as Hla.
      pose proof (Forall_lookup_1 _ _ _ _ HrB Hrb) as Hlb. simpl in Hla, Hlb.
      rewrite !(proj2 (lookup_ge_None _ _)) by lia. done.
  - symmetry. apply lookup_ge_None. apply lookup_ge_None in Hra. lia.
Qed.

(** [PayoffMatrices] returns one table twice. *)
Lemma sweep_cost_exact c : (0 ≤ c ≤ 30)%Z → exact_cost c.
Proof.
  intros Hc. unfold exact_cost.
  change (2 ^ 48)%Z with 281474976710656%Z. lia.
Qed.

Lemma PayoffMatrices_same c :
  exact_cost c →
  ∃ A, PayoffMatrices c = Some (A, A) ∧ Np.has_shape 21 21 A ∧
       ∀ q1 q2, q1 < 21 → q2 < 21 →
         Np.getitem A q1 q2 = Some ((30 - q1 - q2) * q1 - c * q1)%Z.
Proof.
  intros Hc.
  destruct (PayoffMatrices_filled c Hc) as ([A B] & Hrun & HA & HB & Hv).
  simpl in HA, HB, Hv.
  assert (A = B) as <-.
  { apply (ndarray_ext 21 21); [done..|]. intros i j Hi Hj.
    destruct (Hv i j Hi Hj I) as [-> _]. destruct (Hv j i Hj Hi I) as [_ ->].
    f_equal. lia. }
  exists A. split; [done|]. split; [done|].
  intros q1 q2 Hq1 Hq2. by destruct (Hv q1 q2 Hq1 Hq2 I).
Qed.


(** The whole sweep, evaluated: three equilibria for every cost below 30 and
    one at 30. *)
Lemma equilibrium_count_table (c : nat) :
  c ≤ 30 → equilibrium_count c = Some (if decide (c = 30) then 1 else 3).
Proof.
  intros Hc.
  assert (Forall (λ c : nat, equilibrium_count c
                             = Some (if decide (c = 30) then 1 else 3))
            (seq 0 31)) as Hall by compute_done.
  rewrite Forall_forall in Hall. apply Hall, elem_of_seq. lia.
Qed.

Lemma NashEquilibrium_prints A B c eqs :
  equilibria A B = Some eqs →
  NashEquilibrium A B c = Some (equilibrium_report c eqs).
Proof. unfold NashEquilibrium. intros ->. by destruct eqs. Qed.

(** The format strings, on an example of each. *)
Example equilibrium_line_example :
  equilibrium_line 5 (3, 14) =
  "For marginal cost c = 5, the strategy profile (q1=3, q2=14) is a Nash equilibrium.".
Proof. reflexivity. Qed.

Example absence_line_example :
  absence_line 12 = "For marginal cost c = 12, no pure strategy Nash equilibrium exists.".
Proof. reflexivity. Qed.

Example separators_example :
  str_mul "-" 30 = "------------------------------" ∧
  str_mul "=" 30 = "==============================" ∧
  String.length (str_mul "-" 30) = 30 ∧ String.length (str_mul "=" 30) = 30.
Proof. repeat split. Qed.

(** Both shapes of output occur.  With all payoffs equal every pair is an
    equilibrium; in matching pennies no pair is. *)
Example all_ties_all_equilibria :
  NashEquilibrium (Np.zeros 2 2) (Np.zeros 2 2) 0
  = Some (equilibrium_line 0 <$> [(0, 0); (0, 1); (1, 0); (1, 1)]).
Proof. reflexivity. Qed.

Example matching_pennies_no_equilibrium :
  NashEquilibrium [[1; -1]; [-1; 1]]%Z [[-1; 1]; [1; -1]]%Z 3
  = Some [absence_line 3].
Proof. reflexivity. Qed.

(** The store into a float64 cell on the two sides of 2^53 and of the
    largest float: exact, rounded to even, and too large. *)
Example float_of_int_examples :
  Np.float_of_int (-1200) = Some (-1200)%Z ∧
  Np.float_of_int (2 ^ 53 + 1) = Some (2 ^ 53)%Z ∧
  Np.float_of_int (2 ^ 53 + 3) = Some (2 ^ 53 + 4)%Z ∧
  Np.float_of_int (78 - 3 * 2 ^ 53) = Some (-27021597764222896)%Z ∧
  Np.float_of_int (2 ^ 1024 - 2 ^ 971) = Some (2 ^ 1024 - 2 ^ 971)%Z ∧
  Np.float_of_int (2 ^ 1024 - 2 ^ 970) = None ∧
  Np.float_of_int (29 - 10 ^ 400) = None.
Proof. repeat split; by vm_compute. Qed.

(** A cost beyond 2^53 makes [PayoffMatrices] round, a cost beyond every
    float makes it raise. *)
Example PayoffMatrices_rounds :
  ('(A, _) ← PayoffMatrices (2 ^ 53 + 1); Np.getitem A 3 0)
  = Some (-27021597764222896)%Z.
Proof. by vm_compute. Qed.

Example PayoffMatrices_overflows : PayoffMatrices (10 ^ 400) = None.
Proof. by vm_compute. Qed.

(** ** The claims *)

(** C1. For every cost c in [0,30] and every pair (q1, q2) of quantities in
    [0,20], [PayoffMatrices c] returns tables A and B with
    A[q1,q2] = (30-q1-q2)*q1 - c*q1 and B[q2,q1] = (30-q1-q2)*q2 - c*q2. *)
Theorem PayoffMatrices_entries (c : Z) (q1 q2 : nat) :
  (0 ≤ c ≤ 30)%Z → q1 ≤ 20 → q2 ≤ 20 →
  ∃ A B, PayoffMatrices c = Some (A, B) ∧
         Np.getitem A q1 q2 = Some ((30 - q1 - q2) * q1 - c * q1)%Z ∧
         Np.getitem B q2 q1 = Some ((30 - q1 - q2) * q2 - c * q2)%Z.
Proof.
  intros Hc Hq1 Hq2.
  destruct (PayoffMatrices_filled c (sweep_cost_exact c Hc))
    as ([A B] & Hrun & _ & _ & Hv).
  exists A, B. split; [done|]. apply Hv; [lia..|done].
Qed.

Lemma PayoffMatrices_entries_witness :
  ((0 ≤ 7 ≤ 30)%Z ∧ 3 ≤ 20 ∧ 17 ≤ 20) ∧
  ∃ A B, PayoffMatrices 7 = Some (A, B) ∧
         Np.getitem A 3 17 = Some 9%Z ∧ Np.getitem B 17 3 = Some 51%Z.
Proof.
  split; [lia|]. apply (PayoffMatrices_entries 7 3 17); lia.
Defined.



(** C3. For every cost c in [0,30], the equilibria found on the tables of
    [PayoffMatrices c] are symmetric: with (q1, q2) also (q2, q1) is found. *)
Theorem equilibria_symmetric (c : Z) :
  (0 ≤ c ≤ 30)%Z →
  ∃ eqs, sweep_equilibria c = Some eqs ∧
         ∀ q1 q2, (q1, q2) ∈ eqs → (q2, q1) ∈ eqs.
Proof.
  intros Hc. unfold sweep_equilibria.
  destruct (PayoffMatrices_same c (sweep_cost_exact c Hc)) as (A & -> & HA & _).
  simpl.
  exists (nash_pairs A A 21). split; [by apply equilibria_nash_pairs|].
  intros q1 q2. rewrite !(elem_of_nash_pairs 21 A A HA HA). unfold is_nash. simpl.
  intros (a & b & Ha & Hb & Hca & Hcb). by exists b, a.
Qed.

Lemma equilibria_symmetric_witness :
  (0 ≤ 0 ≤ 30)%Z ∧
  ∃ eqs, sweep_equilibria 0 = Some eqs ∧ (9, 11) ∈ eqs ∧ (11, 9) ∈ eqs.
Proof.
  split; [lia|].
  destruct (equilibria_symmetric 0) as (eqs & Hrun & Hsym); [lia|].
  exists eqs. split; [done|].
  assert ((9, 11) ∈ eqs) as Hin.
  { vm_compute in Hrun. injection Hrun as <-. compute_done. }
  split; [done|]. by apply Hsym.
Defined.

(** C4. The number of equilibria is non-increasing in the cost: for integers
    c1, c2 with 0 <= c1 <= c2 <= 30 the search on the tables of c2 finds at
    most as many pairs as the search on the tables of c1. *)
Theorem equilibrium_count_monotone (c1 c2 : Z) :
  (0 ≤ c1)%Z → (c1 ≤ c2)%Z → (c2 ≤ 30)%Z →
  ∃ n1 n2, equilibrium_count c1 = Some n1 ∧ equilibrium_count c2 = Some n2 ∧
           n2 ≤ n1.
Proof.
  intros H0 H12 H30.
  rewrite <-(Z2Nat.id c1), <-(Z2Nat.id c2) by lia.
  rewrite !equilibrium_count_table by lia.
  do 2 eexists. split; [done|]. split; [done|].
  repeat case_decide; lia.
Qed.

Lemma equilibrium_count_monotone_witness :
  ((0 ≤ 29)%Z ∧ (29 ≤ 30)%Z ∧ (30 ≤ 30)%Z) ∧
  ∃ n1 n2, equilibrium_count 29 = Some n1 ∧ equilibrium_count 30 = Some n2 ∧
           n2 ≤ n1.
Proof.
  split; [lia|]. apply (equilibrium_count_monotone 29 30); lia.
Defined.

(** C5. For c = 30 the search on the tables of [PayoffMatrices 30] finds the
    single pair (0, 0). *)
Theorem equilibria_cost_30 : sweep_equilibria 30 = Some [(0, 0)].
Proof. by vm_compute. Qed.

(** C6. For c = 0 the search on the tables of [PayoffMatrices 0] finds the
    pair (10, 10) and more than one pair in all. *)
Theorem equilibria_cost_0 :
  ∃ eqs, sweep_equilibria 0 = Some eqs ∧ (10, 10) ∈ eqs ∧ 1 < length eqs.
Proof.
  exists [(9, 11); (10, 10); (11, 9)].
  split; [by vm_compute|]. split; [compute_done|]. simpl. lia.
Qed.



(** C8. [main] runs the 31 costs 0..30 in order and prints, for each, the
    six-part block of [report_block], which is written from the text of the
    specification: the header line, 30 dashes, the equilibrium lines of that
    cost or the absence line, an empty line, 30 equals signs, an empty line.
    The first and the last block are given in full. *)
Theorem main_prints_report :
  ∃ (sweep : list (list (nat * nat))) (out : list string),
    length sweep = 31 ∧
    Forall2 (λ (c : nat) eqs, sweep_equilibria c = Some eqs) (range 31) sweep ∧
    main = Some out ∧
    out = concat (zip_with report_block (range 31) sweep) ∧
    take 8 out =
      ["Marginal cost c = 0";
       "------------------------------";
       "For marginal cost c = 0, the strategy profile (q1=9, q2=11) is a Nash equilibrium.";
       "For marginal cost c = 0, the strategy profile (q1=10, q2=10) is a Nash equilibrium.";
       "For marginal cost c = 0, the strategy profile (q1=11, q2=9) is a Nash equilibrium.";
       EmptyString;
       "==============================";
       EmptyString] ∧
    drop 240 out =
      ["Marginal cost c = 30";
       "------------------------------";
       "For marginal cost c = 30, the strategy profile (q1=0, q2=0) is a Nash equilibrium.";
       EmptyString;
       "==============================";
       EmptyString].
Proof.
  do 2 eexists. split_and!.
  2: { apply mapM_Some. vm_compute. reflexivity. }
  2: { vm_compute. reflexivity. }
  - reflexivity.
  - vm_compute. reflexivity.
  - vm_compute. reflexivity.
  - vm_compute. reflexivity.
Qed.

(** C9. For every cost c in [0,30] nothing in the sweep raises: building the
    tables succeeds, the tables are 21x21, and the search and the printing on
    them succeed. *)
Theorem sweep_never_raises (c : Z) :
  (0 ≤ c ≤ 30)%Z →
  ∃ A B eqs out,
    PayoffMatrices c = Some (A, B) ∧
    Np.has_shape 21 21 A ∧ Np.has_shape 21 21 B ∧
    equilibria A B = Some eqs ∧ NashEquilibrium A B c = Some out.
Proof.
  intros Hc.
  destruct (PayoffMatrices_same c (sweep_cost_exact c Hc)) as (A & Hrun & HA & _).
  pose proof (equilibria_nash_pairs 21 A A HA HA) as Heqs.
  exists A, A, (nash_pairs A A 21), (equilibrium_report c (nash_pairs A A 21)).
  split_and!; [done..|]. by apply NashEquilibrium_prints.
Qed.

Lemma sweep_never_raises_witness :
  (0 ≤ 13 ≤ 30)%Z ∧
  ∃ A B eqs out,
    PayoffMatrices 13 = Some (A, B) ∧
    Np.has_shape 21 21 A ∧ Np.has_shape 21 21 B ∧
    equilibria A B = Some eqs ∧ NashEquilibrium A B 13 = Some out.
Proof.
  split; [lia|]. apply (sweep_never_raises 13); lia.
Defined.

(** C10. For every cost c the two tables of [PayoffMatrices c] agree entry
    by entry: whenever the function returns tables A and B, A[i,j] = B[i,j]
    for all i, j in [0,20].  It returns for every cost of magnitude up to
    2^48, the costs 0..30 of the sweep among them. *)
Theorem PayoffMatrices_tables_agree (c : Z) (i j : nat) :
  i ≤ 20 → j ≤ 20 →
  (exact_cost c → is_Some (PayoffMatrices c)) ∧
  ∀ A B, PayoffMatrices c = Some (A, B) →
         ∃ v, Np.getitem A i j = Some v ∧ Np.getitem B i j = Some v.
Proof.
  intros Hi Hj. split.
  - intros Hc. destruct (PayoffMatrices_filled c Hc) as (AB & -> & _).
    by eexists.
  - intros A B Hrun. apply PayoffMatrices_stored in Hrun as (HA & HB & Hv).
    simpl in HA, HB, Hv.
    destruct (getitem_in_bounds 21 21 A HA i j) as [v Hget]; [lia..|].
    exists v. split; [exact Hget|].
    destruct (Hv i j ltac:(lia) ltac:(lia) I) as [HAij _].
    destruct (Hv j i ltac:(lia) ltac:(lia) I) as [_ HBij].
    rewrite HBij, <-Hget, HAij. f_equal. lia.
Qed.

Lemma PayoffMatrices_tables_agree_witness :
  (4 ≤ 20 ∧ 9 ≤ 20) ∧
  ∃ A B v, PayoffMatrices 2 = Some (A, B) ∧
           Np.getitem A 4 9 = Some v ∧ Np.getitem B 4 9 = Some v.
Proof.
  split; [lia|].
  destruct (PayoffMatrices_tables_agree 2 4 9) as [Hreturns Hagree]; [lia..|].
  destruct Hreturns as [[A B] HAB]; [compute_done|].
  destruct (Hagree A B HAB) as (v & HA & HB).
  exists A, B, v. split; [exact HAB|]. split; [exact HA|exact HB].
Defined.

(** ** Further properties of the script *)

(** *** The payoff tables as a tabulation *)

Lemma profit_table_shape c : Np.has_shape 21 21 (profit_table c).
Proof.
  unfold profit_table. split.
  - by rewrite length_fmap, length_seq.
  - apply Forall_fmap, Forall_forall. intros q1 _. unfold compose.
    by rewrite length_fmap, length_seq.
Qed.

Lemma profit_table_getitem c q1 q2 :
  q1 < 21 → q2 < 21 →
  Np.getitem (profit_table c) q1 q2 = Some ((30 - q1 - q2) * q1 - c * q1)%Z.
Proof.
  intros H1 H2. unfold Np.getitem, profit_table.
  rewrite list_lookup_fmap, lookup_seq_lt by done. cbn -[seq].
  by rewrite list_lookup_fmap, lookup_seq_lt by done.
Qed.

(** X1. For every integer cost of magnitude up to 2^48, where every profit
    is stored exactly, the two nested loops of [PayoffMatrices] succeed and
    leave in both arrays the tabulated profit table. *)
Theorem PayoffMatrices_tabulates (c : Z) :
  exact_cost c →
  PayoffMatrices c = Some (profit_table c, profit_table c).
Proof.
  intros Hc. destruct (PayoffMatrices_same c Hc) as (A & -> & HA & Hv).
  assert (A = profit_table c) as ->; [|done].
  apply (ndarray_ext 21 21); [done|apply profit_table_shape|].
  intros i j Hi Hj. by rewrite Hv, profit_table_getitem.
Qed.

Lemma PayoffMatrices_tabulates_witness :
  exact_cost (-1000) ∧
  PayoffMatrices (-1000) = Some (profit_table (-1000), profit_table (-1000)).
Proof.
  assert (exact_cost (-1000)) as Hc by compute_done.
  split; [exact Hc|]. apply (PayoffMatrices_tabulates (-1000) Hc).
Defined.

(** *** The search on square tables of any size *)





(** X2. On two n x n tables, whatever n is, the search returns, in strictly
    increasing lexicographic order, exactly the pairs at which each firm's
    payoff is the maximum of its column. *)
Theorem equilibria_characterised (n : nat) (A B : Np.ndarray) :
  Np.has_shape n n A → Np.has_shape n n B →
  ∃ eqs, equilibria A B = Some eqs ∧ StronglySorted lex_lt eqs ∧
         ∀ q, q ∈ eqs ↔ is_nash A B q.
Proof.
  intros HA HB. exists (nash_pairs A B n).
  split; [by apply equilibria_nash_pairs|].
  split; [apply nash_pairs_sorted|]. by apply elem_of_nash_pairs.
Qed.

Lemma equilibria_characterised_witness :
  (Np.has_shape 2 2 [[2; 0]; [0; 1]]%Z ∧ Np.has_shape 2 2 [[1; 0]; [0; 2]]%Z) ∧
  ∃ eqs, equilibria [[2; 0]; [0; 1]]%Z [[1; 0]; [0; 2]]%Z = Some eqs ∧
         StronglySorted lex_lt eqs ∧
         ∀ q, q ∈ eqs ↔ is_nash [[2; 0]; [0; 1]]%Z [[1; 0]; [0; 2]]%Z q.
Proof.
  split; [split; compute_done|].
  apply (equilibria_characterised 2); compute_done.
Defined.

(** X3. Exchanging the two firms' tables exchanges the components of every
    pair found: (q1, q2) is found on (A, B) exactly when (q2, q1) is found on
    (B, A). *)
Theorem equilibria_swap_firms (n : nat) (A B : Np.ndarray) :
  Np.has_shape n n A → Np.has_shape n n B →
  ∃ eqs eqs', equilibria A B = Some eqs ∧ equilibria B A = Some eqs' ∧
              ∀ q1 q2, (q1, q2) ∈ eqs ↔ (q2, q1) ∈ eqs'.
Proof.
  intros HA HB. exists (nash_pairs A B n), (nash_pairs B A n).
  split; [by apply equilibria_nash_pairs|].
  split; [by apply equilibria_nash_pairs|].
  intros q1 q2.
  rewrite (elem_of_nash_pairs n A B HA HB), (elem_of_nash_pairs n B A HB HA).
  unfold is_nash. simpl. split.
  - intros (a & b & Ha & Hb & Hca & Hcb). by exists b, a.
  - intros (b & a & Hb & Ha & Hcb & Hca). by exists a, b.
Qed.

Lemma equilibria_swap_firms_witness :
  (Np.has_shape 2 2 [[2; 0]; [3; 1]]%Z ∧ Np.has_shape 2 2 [[1; 0]; [0; 2]]%Z) ∧
  ∃ eqs eqs', equilibria [[2; 0]; [3; 1]]%Z [[1; 0]; [0; 2]]%Z = Some eqs ∧
              equilibria [[1; 0]; [0; 2]]%Z [[2; 0]; [3; 1]]%Z = Some eqs' ∧
              ∀ q1 q2, (q1, q2) ∈ eqs ↔ (q2, q1) ∈ eqs'.
Proof.
  split; [split; compute_done|].
  apply (equilibria_swap_firms 2); compute_done.
Defined.



(** *** Tables of the wrong shape *)





(** *** Ties *)

Lemma bind_ext_in {X Y} (f g : X → list Y) (l : list X) :
  (∀ x, x ∈ l → f x = g x) → l ≫= f = l ≫= g.
Proof.
  induction l as [|x l IH]; intros Hfg; [done|].
  rewrite !bind_cons, Hfg by (apply elem_of_cons; by left).
  f_equal. apply IH. intros y Hy. apply Hfg, elem_of_cons. by right.
Qed.

Lemma const_shape n (v : Z) : Np.has_shape n n (replicate n (replicate n v)).
Proof.
  split; [apply length_replicate|].
  apply Forall_replicate, length_replicate.
Qed.

Lemma const_getitem n (v : Z) i j :
  i < n → j < n → Np.getitem (replicate n (replicate n v)) i j = Some v.
Proof.
  intros Hi Hj. unfold Np.getitem.
  rewrite lookup_replicate_2 by done. simpl. by rewrite lookup_replicate_2.
Qed.

Lemma const_best_response n (v : Z) i j :
  i < n → j < n → best_response (replicate n (replicate n v)) i j = true.
Proof.
  intros Hi Hj. apply Is_true_true_1.
  apply (best_response_col_max n); [apply const_shape|done..|].
  exists v. split; [by apply const_getitem|].
  split; [exists i; by apply const_getitem|].
  intros i' x Hx.
  destruct (getitem_Some_bounds n n _ (const_shape n v) _ _ _ Hx) as [Hi' _].
  rewrite const_getitem in Hx by done. simplify_eq. lia.
Qed.

(** X6. The test is [>=], so ties count: when each table holds one value in
    every cell, every pair of the grid is collected, in grid order. *)
Theorem ties_keep_every_pair (n : nat) (v w : Z) :
  equilibria (replicate n (replicate n v)) (replicate n (replicate n w))
  = Some (grid n).
Proof.
  rewrite (equilibria_nash_pairs n) by apply const_shape.
  f_equal. unfold nash_pairs, grid.
  apply bind_ext_in. intros q1 Hq1%elem_of_seq.
  apply bind_ext_in. intros q2 Hq2%elem_of_seq.
  by rewrite !const_best_response by lia.
Qed.

(** *** What the sweep finds *)

Lemma lex_sorted_singleton (l : list (nat * nat)) a :
  StronglySorted lex_lt l → (∀ q, q ∈ l ↔ q = a) → l = [a].
Proof.
  intros Hsort Hmem. destruct l as [|x l].
  - by destruct (elem_of_nil a) as [[] _]; apply Hmem.
  - assert (x = a) as -> by (apply Hmem, elem_of_cons; by left).
    destruct l as [|y l]; [done|]. exfalso.
    assert (y = a) as ->.
    { apply Hmem. apply elem_of_cons. right. apply elem_of_cons. by left. }
    apply StronglySorted_cons in Hsort as [Hlt _].
    apply Forall_cons in Hlt as [[?|[_ ?]] _]; lia.
Qed.

(** Rounding keeps the sign: a negative int is stored as a negative float,
    zero as zero. *)
Lemma float_of_int_sign (v r : Z) :
  Np.float_of_int v = Some r → (v ≤ 0)%Z → (r ≤ 0)%Z ∧ ((v < 0)%Z → (r < 0)%Z).
Proof.
  unfold Np.float_of_int. cbv zeta. intros Hr Hv.
  destruct (decide (Z.abs v < 2 ^ 53)%Z) as [|Hbig]; [simplify_eq; lia|].
  case_decide; [|done]. simplify_eq.
  set (a := Z.abs v) in *. set (e := (Z.log2 a - 52)%Z) in *.
  assert (2 ^ 53 ≤ a)%Z as Ha by lia.
  assert (0 < a)%Z as Hpos by (assert (0 < 2 ^ 53)%Z by done; lia).
  assert (53 ≤ Z.log2 a)%Z as Hlog.
  { change 53%Z with (Z.log2 (2 ^ 53)). by apply Z.log2_le_mono. }
  assert (0 < 2 ^ e)%Z as Hpow by (apply Z.pow_pos_nonneg; lia).
  assert (2 ^ e ≤ a)%Z as Hle.
  { etrans; [|apply (Z.log2_spec a Hpos)].
    apply Z.pow_le_mono_r; lia. }
  assert (1 ≤ a / 2 ^ e)%Z as Hm by (apply Z.div_le_lower_bound; lia).
  assert (v < 0)%Z as Hneg by lia.
  rewrite (Z.sgn_neg v Hneg).
  assert (0 < (if decide (2 ^ (e - 1) < a `mod` 2 ^ e
                          ∨ a `mod` 2 ^ e = 2 ^ (e - 1) ∧ Z.odd (a / 2 ^ e) = true)
               then a / 2 ^ e + 1 else a / 2 ^ e) * 2 ^ e)%Z.
  { apply Z.mul_pos_pos; [case_decide; lia|done]. }
  lia.
Qed.

(** X7. When the cost is at least 30, the highest price the market can pay,
    producing anything loses money whatever the other firm does.  Whenever
    the sweep of such a cost returns, rounded profits or not, it has found
    the single pair (0, 0); and it returns for every cost up to 2^48. *)
Theorem high_cost_no_production (c : Z) :
  (30 ≤ c)%Z →
  (exact_cost c → is_Some (sweep_equilibria c)) ∧
  ∀ eqs, sweep_equilibria c = Some eqs → eqs = [(0, 0)].
Proof.
  intros Hc. unfold sweep_equilibria. split.
  - intros Hex. destruct (PayoffMatrices_same c Hex) as (T & -> & HT & _). simpl.
    rewrite (equilibria_nash_pairs 21) by done. by eexists.
  - intros eqs.
    destruct (PayoffMatrices c) as [[A B]|] eqn:HAB; simpl; [|intros [=]].
    apply PayoffMatrices_stored in HAB as (HA & HB & Hv). simpl in HA, HB, Hv.
    rewrite (equilibria_nash_pairs 21) by done. intros [= <-].
    (* every cell of row 0 holds 0, every other cell a negative number *)
    assert (∀ q1 q2 a, Np.getitem A q1 q2 = Some a →
                       (a ≤ 0)%Z ∧ (0 < q1 → (a < 0)%Z) ∧ (q1 = 0 → a = 0%Z))
      as HsignA.
    { intros q1 q2 a Ha.
      destruct (getitem_Some_bounds 21 21 A HA _ _ _ Ha) as [Hq1 Hq2].
      destruct (Hv q1 q2 Hq1 Hq2 I) as [Hst _]. rewrite Ha in Hst. symmetry in Hst.
      destruct (float_of_int_sign _ _ Hst) as [Hle Hlt]; [nia|].
      split; [done|]. split; [intros ?; apply Hlt; nia|].
      intros ->. rewrite float_of_int_exact in Hst by (simpl; lia).
      simplify_eq. lia. }
    assert (∀ q2 q1 b, Np.getitem B q2 q1 = Some b →
                       (b ≤ 0)%Z ∧ (0 < q2 → (b < 0)%Z) ∧ (q2 = 0 → b = 0%Z))
      as HsignB.
    { intros q2 q1 b Hb.
      destruct (getitem_Some_bounds 21 21 B HB _ _ _ Hb) as [Hq2 Hq1].
      destruct (Hv q1 q2 Hq1 Hq2 I) as [_ Hst]. rewrite Hb in Hst. symmetry in Hst.
      destruct (float_of_int_sign _ _ Hst) as [Hle Hlt]; [nia|].
      split; [done|]. split; [intros ?; apply Hlt; nia|].
      intros ->. rewrite float_of_int_exact in Hst by (simpl; lia).
      simplify_eq. lia. }
    clear Hv. apply lex_sorted_singleton; [apply nash_pairs_sorted|].
    intros [q1 q2]. rewrite (elem_of_nash_pairs 21 _ _ HA HB). unfold is_nash.
    cbn [fst snd]. split.
    + intros (a & b & Ha & Hb & [_ HmaxA] & [_ HmaxB]).
      destruct (getitem_Some_bounds 21 21 A HA _ _ _ Ha) as [Hq1 Hq2].
      destruct (getitem_in_bounds 21 21 A HA 0 q2) as [a0 Ha0]; [lia..|].
      destruct (getitem_in_bounds 21 21 B HB 0 q1) as [b0 Hb0]; [lia..|].
      pose proof (HmaxA 0 a0 Ha0). pose proof (HmaxB 0 b0 Hb0).
      destruct (HsignA _ _ _ Ha) as (_ & HaNeg & _).
      destruct (HsignB _ _ _ Hb) as (_ & HbNeg & _).
      destruct (HsignA _ _ _ Ha0) as (_ & _ & Ha0Z).
      destruct (HsignB _ _ _ Hb0) as (_ & _ & Hb0Z).
      assert (q1 = 0) as -> by lia. assert (q2 = 0) as -> by lia. done.
    + intros [= -> ->].
      destruct (getitem_in_bounds 21 21 A HA 0 0) as [a Ha]; [lia..|].
      destruct (getitem_in_bounds 21 21 B HB 0 0) as [b Hb]; [lia..|].
      destruct (HsignA _ _ _ Ha) as (_ & _ & HaZ). specialize (HaZ eq_refl).
      destruct (HsignB _ _ _ Hb) as (_ & _ & HbZ). specialize (HbZ eq_refl).
      subst a b. exists 0%Z, 0%Z. split; [done|]. split; [done|]. split.
      * split; [by exists 0|]. intros i x Hx. by destruct (HsignA _ _ _ Hx).
      * split; [by exists 0|]. intros i x Hx. by destruct (HsignB _ _ _ Hx).
Qed.

Lemma high_cost_no_production_witness :
  (30 ≤ 42)%Z ∧ sweep_equilibria 42 = Some [(0, 0)].
Proof.
  split; [lia|].
  destruct (high_cost_no_production 42) as [Hreturns Honly]; [lia|].
  destruct Hreturns as [eqs Heqs]; [compute_done|].
  rewrite Heqs. f_equal. apply Honly, Heqs.
Defined.

Lemma equilibrium_count_length c A B eqs :
  PayoffMatrices c = Some (A, B) → equilibria A B = Some eqs →
  equilibrium_count c = Some (length eqs).
Proof.
  intros HAB Hrun. unfold equilibrium_count, sweep_equilibria.
  rewrite HAB. simpl. by rewrite Hrun.
Qed.

(** X8. The report at the top of the script says an equilibrium exists for
    every cost of the sweep.  It does: for each c in [0,30] the search
    collects at least one pair, so the lines printed are equilibrium lines
    and the absence line is not printed. *)
Theorem sweep_equilibrium_exists (c : nat) :
  c ≤ 30 →
  ∃ A B eqs, PayoffMatrices c = Some (A, B) ∧ equilibria A B = Some eqs ∧
             eqs ≠ [] ∧
             NashEquilibrium A B c = Some (equilibrium_line c <$> eqs).
Proof.
  intros Hc.
  destruct (PayoffMatrices_same c (sweep_cost_exact c ltac:(lia)))
    as (A & HAB & HA & _).
  pose proof (equilibria_nash_pairs 21 A A HA HA) as Hrun.
  pose proof (equilibrium_count_table c Hc) as Hcount.
  rewrite (equilibrium_count_length _ _ _ _ HAB Hrun) in Hcount.
  exists A, A, (nash_pairs A A 21). split; [exact HAB|]. split; [exact Hrun|].
  unfold NashEquilibrium. rewrite Hrun. clear HAB Hrun.
  destruct (nash_pairs A A 21) as [|q eqs].
  - exfalso. simpl in Hcount. case_decide; simplify_eq.
  - split; [intros Hnil; discriminate Hnil|reflexivity].
Qed.

Lemma sweep_equilibrium_exists_witness :
  30 ≤ 30 ∧
  ∃ A B eqs, PayoffMatrices 30%nat = Some (A, B) ∧ equilibria A B = Some eqs ∧
             eqs ≠ [] ∧
             NashEquilibrium A B 30%nat = Some (equilibrium_line 30%nat <$> eqs).
Proof.
  split; [lia|]. apply (sweep_equilibrium_exists 30). lia.
Defined.

(** X9. The report also says both firms produce roughly the same quantity.
    For each c in [0,30] every pair (q1, q2) the search collects has
    quantities at most 2 apart, and each quantity is within one unit of the
    Cournot quantity (30 - c) / 3. *)
Theorem sweep_equilibria_near_cournot (c : nat) :
  c ≤ 30 →
  ∃ eqs, sweep_equilibria c = Some eqs ∧
         ∀ q1 q2, (q1, q2) ∈ eqs →
                  q1 ≤ q2 + 2 ∧ q2 ≤ q1 + 2 ∧
                  27 ≤ 3 * q1 + c ≤ 33 ∧ 27 ≤ 3 * q2 + c ≤ 33.
Proof.
  intros Hc.
  assert (forallb (λ c : nat,
            match sweep_equilibria c with
            | Some eqs =>
                forallb (λ q : nat * nat,
                  bool_decide (q.1 ≤ q.2 + 2 ∧ q.2 ≤ q.1 + 2 ∧
                               27 ≤ 3 * q.1 + c ≤ 33 ∧ 27 ≤ 3 * q.2 + c ≤ 33)) eqs
            | None => false
            end) (seq 0 31) = true) as Hall by (vm_compute; reflexivity).
  rewrite forallb_forall in Hall.
  assert (In c (seq 0 31)) as Hin by (apply in_seq; lia).
  apply Hall in Hin. clear Hall.
  destruct (sweep_equilibria c) as [eqs|]; [|discriminate Hin].
  exists eqs. split; [reflexivity|]. intros q1 q2 Hq.
  rewrite forallb_forall in Hin. apply list_elem_of_In in Hq.
  apply Hin in Hq. apply bool_decide_eq_true_1 in Hq. exact Hq.
Qed.

Lemma sweep_equilibria_near_cournot_witness :
  4 ≤ 30 ∧
  ∃ eqs, sweep_equilibria 4%nat = Some eqs ∧
         ∀ q1 q2, (q1, q2) ∈ eqs →
                  q1 ≤ q2 + 2 ∧ q2 ≤ q1 + 2 ∧
                  27 ≤ 3 * q1 + 4 ≤ 33 ∧ 27 ≤ 3 * q2 + 4 ≤ 33.
Proof.
  split; [lia|]. apply (sweep_equilibria_near_cournot 4). lia.
Defined.
